(** * FGElectric: the electric motor model of JSBSim

    A shallow embedding of [src/models/propulsion/FGElectric.cpp] and the
    properties of its per-timestep power command.

    Numbers.  The C++ code computes on [double].  Two embeddings of the
    same code are given.  In the first a [double] is an exact rational
    ([Q]): rounding, overflow, infinities and NaN are outside the model,
    and so is the result of a division by zero (which [Q] defines as 0).
    Equality of numbers is [==] ([Qeq]); [std::min] and [std::max] are
    [Qmin] and [Qmax], which return their first argument on a tie as the C++
    functions do; [abs] on a [double] is [Qabs].  The general theorems are
    stated on this model, and they are stated so that they do not depend on
    exact arithmetic: they equate the code's own expressions, compare
    values, or follow the data flow (a lemma that holds in exact arithmetic
    only says so).  The second embedding, [Binary64], is
    the same code on IEEE 754 binary64 numbers (Rocq's primitive floats);
    it is evaluated at concrete inputs, where it shows what rounding does to
    the properties that hold in exact arithmetic only.

    Collaborators.  The thruster and the [in] structure of the engine are
    read-only inputs of one call ([Inputs]); the value handed to
    [Thruster->Calculate] is an output of the call.  [RunPreFunctions],
    [RunPostFunctions], [LoadThrusterInputs], [SetAdvance] and [SetFeather]
    do not touch the members or the locals of [Calculate] and are left out.

    Constants.  [wattstohp], [hptoftlbssec] and [rpmtoradpsec] are declared
    in headers that are not part of the sources at hand; they are parameters
    of the development ([Units]). *)

From Stdlib Require Import ZArith QArith Qabs Qminmax Qfield Lqa Lia.
From Stdlib Require Import List Ascii String DecimalString DecimalPos DecimalZ.
From Stdlib Require PrimFloat.
Import ListNotations.

Local Open Scope Q_scope.

Module FGElectric.

(** ** Data *)

(** What one call of [Calculate] reads from [in] and from the thruster. *)
Record Inputs : Type := mkInputs {
  ThrottlePos      : Q;   (* in.ThrottlePos[EngineNumber] *)
  TotalDeltaT      : Q;   (* in.TotalDeltaT *)
  GetPowerRequired : Q;   (* Thruster->GetPowerRequired(), ft-lbs/sec *)
  GetGearRatio     : Q;   (* Thruster->GetGearRatio() *)
  GetRPM           : Q;   (* Thruster->GetRPM() *)
  GetTorque        : Q    (* ((FGPropeller* )Thruster)->GetTorque() *)
}.

(** The data members of the class that [Calculate] reads or writes. *)
Record FGElectric : Type := mkFGElectric {
  PowerMax  : Q;   (* watts *)
  MaxRPM    : Q;
  Tau       : Q;
  FiltState : Q;
  HP        : Q
}.

(** The unit conversion constants that the code uses.  Their declarations are
    in headers outside the sources at hand, so their values are left open. *)
Record Units : Type := mkUnits {
  wattstohp    : Q;
  hptoftlbssec : Q;
  rpmtoradpsec : Q
}.

(** [x > y] on doubles. *)
Definition Qgt_bool (x y : Q) : bool := negb (Qle_bool x y).

(** The constructor.  [power], [maxrpm] and [tau] are the values of the XML
    elements of these names, [None] when the element is absent; [PowerMax0]
    and [HP0] are what the two members hold when the constructor does not
    assign them. *)
Definition FGElectric_ctor (power maxrpm tau : option Q) (PowerMax0 HP0 : Q)
  : FGElectric :=
  let PowerMax := match power with Some w => w | None => PowerMax0 end in
  let MaxRPM := 0 in
  let MaxRPM := match maxrpm with Some r => r | None => MaxRPM end in
  let Tau := 0 in
  let Tau := match tau with Some t => t | None => Tau end in
  let FiltState := 0 in
  mkFGElectric PowerMax MaxRPM Tau FiltState HP0.

(** The variables local to the branch of [Calculate] that ran, as they are
    when the branch ends. *)
Inductive Branch : Type :=
| RPMCommand (CmdRPM RPM DeltaRPM TorqueReq : Q)
    (* lines 119-139; [RPM] is the value read at line 136 *)
| PowerCommand (PowerReqFilt : Q) (PowerReqFilt_inner : option Q)
               (CmdPower_stale : Q).
    (* [PowerReqFilt]: the variable of line 142, as read at line 157;
       [PowerReqFilt_inner]: the variable of line 146, when its block ran;
       [CmdPower_stale]: what [CmdPower] holds when line 157 overwrites it *)

(** Everything one call of [Calculate] leaves behind: the object, the
    argument of [Thruster->Calculate], and the function's locals. *)
Record Trace : Type := mkTrace {
  self         : FGElectric;  (* the object after the call *)
  to_thruster  : Q;           (* argument of Thruster->Calculate, line 163 *)
  dt_          : Q;           (* dt *)
  alpha_       : option Q;    (* alpha; None when it was never assigned *)
  CmdPower_raw : Q;           (* CmdPower just before line 160 *)
  branch       : Branch
}.

Definition set_FiltState (m : FGElectric) (v : Q) : FGElectric :=
  mkFGElectric (PowerMax m) (MaxRPM m) (Tau m) v (HP m).

Definition set_HP (m : FGElectric) (v : Q) : FGElectric :=
  mkFGElectric (PowerMax m) (MaxRPM m) (Tau m) (FiltState m) v.

Section Calculate.

Variable U : Units.

(** [FGElectric::Calculate], lines 101-167.  [CmdPower_indet] is the
    indeterminate value that the declaration [double CmdPower;] of line 114
    leaves in the variable. *)
Definition Calculate (m : FGElectric) (i : Inputs) (CmdPower_indet : Q)
  : Trace :=
  let PowerReq := GetPowerRequired i in
  let PowerMax_ftlbssec := PowerMax m * wattstohp U * hptoftlbssec U in
  let Cmd := ThrottlePos i in
  let CmdPower := CmdPower_indet in
  let dt := Qmax 0.0001 (TotalDeltaT i) in
  let alpha := @None Q in
  let '(m, dt, alpha, CmdPower, br) :=
    if Qgt_bool (MaxRPM m) 0 then
      let CmdRPM := MaxRPM m * Cmd in
      let CmdRPM := Qmin CmdRPM (MaxRPM m) in
      let GearRatio := GetGearRatio i in
      let RPM := GetRPM i * GearRatio in
      let RPM := Qmin RPM (MaxRPM m) in
      let '(m, dt, alpha, RPM) :=
        if Qgt_bool (Tau m) 0 then
          let dt := Qmax 0.0001 (TotalDeltaT i) in
          let alpha := 1 / (1 + (Tau m / dt)) in
          let RPM := alpha * RPM + (1 - alpha) * FiltState m in
          let m := set_FiltState m RPM in
          (m, dt, Some alpha, RPM)
        else (m, dt, alpha, RPM) in
      let DeltaRPM := CmdRPM - RPM in
      let TorqueReq := Qabs (GetTorque i) / GearRatio in
      let CmdPower := TorqueReq * (DeltaRPM * rpmtoradpsec U) + PowerReq in
      (m, dt, alpha, CmdPower, RPMCommand CmdRPM RPM DeltaRPM TorqueReq)
    else
      let PowerReqFilt := PowerReq in
      let '(m, dt, alpha, CmdPower, inner) :=
        if Qgt_bool (Tau m) 0 then
          let dt := Qmax 0.0001 (TotalDeltaT i) in
          let alpha := 1 / (1 + (Tau m / dt)) in
          let PowerReqFilt := alpha * PowerReq + (1 - alpha) * FiltState m in
          let m := set_FiltState m PowerReqFilt in
          let CmdPower := CmdPower - PowerReq in
          (m, dt, Some alpha, CmdPower, Some PowerReqFilt)
        else (m, dt, alpha, CmdPower, None) in
      let CmdPower_stale := CmdPower in
      let CmdPower := PowerMax_ftlbssec * Cmd + PowerReq - PowerReqFilt in
      (m, dt, alpha, CmdPower,
       PowerCommand PowerReqFilt inner CmdPower_stale) in
  let CmdPower_raw := CmdPower in
  let CmdPower := Qmin CmdPower PowerMax_ftlbssec in
  let m := set_HP m (CmdPower / hptoftlbssec U) in
  mkTrace m CmdPower dt alpha CmdPower_raw br.

(** The measurement that the lag filter of the active mode works on: the
    clamped RPM of lines 123-124 in the RPM-command branch, the power of
    line 110 in the power-command branch. *)
Definition measure (m : FGElectric) (i : Inputs) : Q :=
  if Qgt_bool (MaxRPM m) 0
  then Qmin (GetRPM i * GetGearRatio i) (MaxRPM m)
  else GetPowerRequired i.

(** [FGElectric::CalcFuelNeed], lines 171-174. *)
Definition CalcFuelNeed (m : FGElectric) : Q := 0.

(** The object after [n] timesteps: call [k] reads the inputs [ins k] and
    finds the indeterminate value [ind k] in [CmdPower]. *)
Fixpoint run (m : FGElectric) (ins : nat -> Inputs) (ind : nat -> Q) (n : nat)
  : FGElectric :=
  match n with
  | O => m
  | S k => self (Calculate (run m ins ind k) (ins k) (ind k))
  end.

(** The objects that a motor built by the constructor can become. *)
Inductive reachable (m0 : FGElectric) : FGElectric -> Prop :=
| reach_ctor : reachable m0 m0
| reach_Calculate m i u :
    reachable m0 m -> reachable m0 (self (Calculate m i u)).

End Calculate.

(** ** Concrete data

    Values of the conversion constants at which the code is evaluated below
    (one horsepower is 550 ft-lbs/sec and 745.7 W; one revolution per minute
    is about 0.10472 rad/s), and a few motors and inputs.  The general
    theorems hold for every value of the constants. *)
Module Sample.

Definition units : Units := mkUnits (1 / 745.7) 550 0.10472.

(** 745.7 W, power command, no filter. *)
Definition motor_plain : FGElectric :=
  FGElectric_ctor (Some 745.7) None None 0 0.

(** 745.7 W, power command, tau = 1 s. *)
Definition motor_lag : FGElectric :=
  FGElectric_ctor (Some 745.7) None (Some 1) 0 0.

(** A configuration file that gives a negative power. *)
Definition motor_negative : FGElectric :=
  FGElectric_ctor (Some (-745.7)) None None 0 0.

(** 745.7 W, RPM command up to 2000 RPM, tau = 1 s. *)
Definition motor_rpm : FGElectric :=
  FGElectric_ctor (Some 745.7) (Some 2000) (Some 1) 0 0.

(** Half throttle, a step of 1 s, a thruster that needs 100 ft-lbs/sec. *)
Definition in_half : Inputs := mkInputs 0.5 1 100 1 0 100.

(** Zero throttle and a thruster that needs nothing. *)
Definition in_idle : Inputs := mkInputs 0 0.01 0 1 0 0.

(** Full reverse throttle. *)
Definition in_reverse : Inputs := mkInputs (-1) 0.01 0 1 0 0.

(** Throttle above 1 and a propeller that overspeeds. *)
Definition in_overspeed : Inputs := mkInputs 3 0.5 40 2 5000 (-100).

(** A timestep that is not positive. *)
Definition in_negative_dt : Inputs := mkInputs 0.5 (-1) 100 1 0 100.

Definition Calculate : FGElectric -> Inputs -> Q -> Trace :=
  FGElectric.Calculate units.

End Sample.

(** More motors and inputs at which the theorems are applied. *)
Module Cases.

(** 745.7 W, RPM command up to 2000 RPM, no filter. *)
Definition motor_rpm_plain : FGElectric :=
  FGElectric_ctor (Some 745.7) (Some 2000) None 0 0.

(** Zero throttle and a thruster that needs 100 ft-lbs/sec. *)
Definition in_idle_loaded : Inputs := mkInputs 0 0.01 100 1 0 0.

(** A thruster with a single label. *)
Definition thruster_labels (n : Z) (delimiter : string) : string :=
  ("thrust " ++ delimiter)%string.

End Cases.

(** ** The code on binary64 numbers

    [Calculate] and the constructor once more, line by line as above, on
    the numbers the C++ code computes on.  [std::min(a, b)] is
    [(b < a) ? b : a] and [std::max(a, b)] is [(a < b) ? b : a]. *)
Module Binary64.

Import PrimFloat.
#[local] Set Warnings "-inexact-float".
Local Open Scope float_scope.

Record Units : Type := mkUnits {
  wattstohp    : float;
  hptoftlbssec : float;
  rpmtoradpsec : float
}.

Record Inputs : Type := mkInputs {
  ThrottlePos      : float;
  TotalDeltaT      : float;
  GetPowerRequired : float;
  GetGearRatio     : float;
  GetRPM           : float;
  GetTorque        : float
}.

Record FGElectric : Type := mkFGElectric {
  PowerMax  : float;
  MaxRPM    : float;
  Tau       : float;
  FiltState : float;
  HP        : float
}.

Definition min (a b : float) : float := if ltb b a then b else a.
Definition max (a b : float) : float := if ltb a b then b else a.

(** [x > y] on doubles. *)
Definition gt (x y : float) : bool := ltb y x.

Definition FGElectric_ctor (power maxrpm tau : option float)
  (PowerMax0 HP0 : float) : FGElectric :=
  let PowerMax := match power with Some w => w | None => PowerMax0 end in
  let MaxRPM := 0 in
  let MaxRPM := match maxrpm with Some r => r | None => MaxRPM end in
  let Tau := 0 in
  let Tau := match tau with Some t => t | None => Tau end in
  let FiltState := 0 in
  mkFGElectric PowerMax MaxRPM Tau FiltState HP0.

(** What a call leaves behind; [RPM_] is the [RPM] read at line 136, when
    the RPM-command branch ran. *)
Record Trace : Type := mkTrace {
  self         : FGElectric;
  to_thruster  : float;
  alpha_       : option float;
  CmdPower_raw : float;
  RPM_         : option float
}.

Definition set_FiltState (m : FGElectric) (v : float) : FGElectric :=
  mkFGElectric (PowerMax m) (MaxRPM m) (Tau m) v (HP m).

Definition set_HP (m : FGElectric) (v : float) : FGElectric :=
  mkFGElectric (PowerMax m) (MaxRPM m) (Tau m) (FiltState m) v.

(** [FGElectric::Calculate], lines 101-167. *)
Definition Calculate (U : Units) (m : FGElectric) (i : Inputs)
  (CmdPower_indet : float) : Trace :=
  let PowerReq := GetPowerRequired i in
  let PowerMax_ftlbssec := PowerMax m * wattstohp U * hptoftlbssec U in
  let Cmd := ThrottlePos i in
  let CmdPower := CmdPower_indet in
  let dt := max 0.0001 (TotalDeltaT i) in
  let alpha := @None float in
  let '(m, alpha, CmdPower, rpm) :=
    if gt (MaxRPM m) 0 then
      let CmdRPM := MaxRPM m * Cmd in
      let CmdRPM := min CmdRPM (MaxRPM m) in
      let GearRatio := GetGearRatio i in
      let RPM := GetRPM i * GearRatio in
      let RPM := min RPM (MaxRPM m) in
      let '(m, alpha, RPM) :=
        if gt (Tau m) 0 then
          let dt := max 0.0001 (TotalDeltaT i) in
          let alpha := 1 / (1 + (Tau m / dt)) in
          let RPM := alpha * RPM + (1 - alpha) * FiltState m in
          let m := set_FiltState m RPM in
          (m, Some alpha, RPM)
        else (m, alpha, RPM) in
      let DeltaRPM := CmdRPM - RPM in
      let TorqueReq := abs (GetTorque i) / GearRatio in
      let CmdPower := TorqueReq * (DeltaRPM * rpmtoradpsec U) + PowerReq in
      (m, alpha, CmdPower, Some RPM)
    else
      let PowerReqFilt := PowerReq in
      let '(m, alpha, CmdPower) :=
        if gt (Tau m) 0 then
          let dt := max 0.0001 (TotalDeltaT i) in
          let alpha := 1 / (1 + (Tau m / dt)) in
          let PowerReqFilt := alpha * PowerReq + (1 - alpha) * FiltState m in
          let m := set_FiltState m PowerReqFilt in
          let CmdPower := CmdPower - PowerReq in
          (m, Some alpha, CmdPower)
        else (m, alpha, CmdPower) in
      let CmdPower := PowerMax_ftlbssec * Cmd + PowerReq - PowerReqFilt in
      (m, alpha, CmdPower, None) in
  let CmdPower_raw := CmdPower in
  let CmdPower := min CmdPower PowerMax_ftlbssec in
  let m := set_HP m (CmdPower / hptoftlbssec U) in
  mkTrace m CmdPower alpha CmdPower_raw rpm.

(** The object after [n] calls that all read the inputs [i]. *)
Fixpoint run (U : Units) (m : FGElectric) (i : Inputs) (n : nat)
  : FGElectric :=
  match n with
  | O => m
  | S k => self (Calculate U (run U m i k) i 0)
  end.


(** The conversion constants of [Sample.units]. *)
Definition units : Units := mkUnits (1 / 745.7) 550 0.10472.

(** 745.7 W, RPM command up to 2000 RPM, tau = 1 s; full throttle, 120
    calls per second, a propeller held at 2000 RPM. *)
Definition motor_rpm : FGElectric :=
  FGElectric_ctor (Some 745.7) (Some 2000) (Some 1) 0 0.
Definition in_full_rpm : Inputs := mkInputs 1 (1 / 120) 0 1 2000 100.

(** 745.7 W, power command, tau = 2 s; half throttle, steps of 0.5 s, a
    thruster that needs 3.3 ft-lbs/sec. *)
Definition motor_lag : FGElectric :=
  FGElectric_ctor (Some 745.7) None (Some 2) 0 0.

(** Power command with a very small and with a very large time constant
    (2^-70 s and 2^1023 s); steps of 1 s. *)
Definition motor_tiny_tau : FGElectric :=
  FGElectric_ctor (Some 745.7) None (Some 0x1p-70) 0 0.
Definition motor_huge_tau : FGElectric :=
  FGElectric_ctor (Some 745.7) None (Some 0x1p1023) 0 0.
Definition in_second : Inputs := mkInputs 0.5 1 100 1 0 0.

(** A step that is not positive, which the code replaces by 0.0001 s. *)
Definition in_floor : Inputs := mkInputs 0.5 0 100 1 0 0.

Definition zero : float := 0.
Definition one : float := 1.

End Binary64.

(** ** Helpers for the statements *)

(** The largest finite binary64 number, [DBL_MAX] of <cfloat>. *)
Definition DBL_MAX : Q := inject_Z (2 ^ 1024 - 2 ^ 971).

(** Whether the RPM-command branch, lines 119-139, is the one that ran. *)
Definition is_RPMCommand (b : Branch) : bool :=
  match b with
  | RPMCommand _ _ _ _ => true
  | PowerCommand _ _ _ => false
  end.

(** The same inputs with another [in.TotalDeltaT]. *)
Definition with_TotalDeltaT (i : Inputs) (t : Q) : Inputs :=
  mkInputs (ThrottlePos i) t (GetPowerRequired i) (GetGearRatio i)
    (GetRPM i) (GetTorque i).

(** The same object with another [FiltState] and another [HP]
    ([set_FiltState] and [set_HP] in one step). *)
Definition with_state (m : FGElectric) (filt hp : Q) : FGElectric :=
  set_HP (set_FiltState m filt) hp.

(** ** Console output and labels *)

(** What a function inserts into an output stream, in order.  A [double] is
    kept as the number that is inserted: its formatting is not modelled. *)
Inductive Out : Type :=
| Text (s : string)   (* a string literal or a std::string *)
| Number (x : Q)      (* operator<<(double) *)
| Endl.

Definition newline : string := String "010"%char EmptyString.

(** [debug_lvl & mask] used as a condition. *)
Definition flag (debug_lvl mask : Z) : bool :=
  negb (Z.land debug_lvl mask =? 0)%Z.

(** [FGElectric::Debug], lines 220-246: what it writes to [cout].
    [debug_lvl], [Name] and [PowerMax] are the members it reads. *)
Definition Debug (debug_lvl : Z) (Name : string) (PowerMax : Q) (from : Z)
  : list Out :=
  if (debug_lvl <=? 0)%Z then [] else
  let out := [] in
  let out :=
    if flag debug_lvl 1 then
      if (from =? 0)%Z then
        out ++ [Text (newline ++ "    Engine Name: "); Text Name; Endl]
            ++ [Text "      Power Max Watts: "; Number PowerMax; Endl]
      else out
    else out in
  let out :=
    if flag debug_lvl 2 then
      let out :=
        if (from =? 0)%Z
        then out ++ [Text "Instantiated: FGElectric"; Endl] else out in
      let out :=
        if (from =? 1)%Z
        then out ++ [Text "Destroyed:    FGElectric"; Endl] else out in
      out
    else out in
  let out := if flag debug_lvl 4 then out else out in
  let out := if flag debug_lvl 8 then out else out in
  let out := if flag debug_lvl 16 then out else out in
  let out :=
    if flag debug_lvl 64 then (if (from =? 0)%Z then out else out)
    else out in
  out.

(** [operator<<(int)] on a stream in its default state: decimal digits, a
    minus sign for a negative number. *)
Definition show_int (n : Z) : string := NilZero.string_of_int (Z.to_int n).

(** [FGElectric::GetEngineLabels], lines 178-186.  [Name] and [EngineNumber]
    are the members it reads, [GetThrusterLabels] is the thruster's method. *)
Definition GetEngineLabels (Name : string) (EngineNumber : Z)
  (GetThrusterLabels : Z -> string -> string) (delimiter : string) : string :=
  (Name ++ " HP (engine " ++ show_int EngineNumber ++ ")" ++ delimiter
   ++ GetThrusterLabels EngineNumber delimiter)%string.

(** The character [c] occurs in [s]. *)
Fixpoint occurs (c : ascii) (s : string) : Prop :=
  match s with
  | EmptyString => False
  | String a s' => a = c \/ occurs c s'
  end.

(** ** Tactics *)

(** Replace every [Qmin] and [Qmax] of the goal by a variable bounded by its
    specification, so that linear arithmetic can finish. *)
Ltac name_clamps :=
  repeat match goal with
  | |- context [Qmin ?a ?b] =>
      let H := fresh "Hmin" in
      pose proof (Q.min_spec a b) as H;
      generalize dependent (Qmin a b); intros
  | |- context [Qmax ?a ?b] =>
      let H := fresh "Hmax" in
      pose proof (Q.max_spec a b) as H;
      generalize dependent (Qmax a b); intros
  end.

(** Split [Calculate] along the two tests of the code. *)
Ltac by_mode m :=
  unfold Calculate;
  destruct (Qgt_bool (MaxRPM m) 0) eqn:?Hmode;
  destruct (Qgt_bool (Tau m) 0) eqn:?Hfilt;
  cbn [self to_thruster dt_ alpha_ CmdPower_raw branch
       set_HP set_FiltState PowerMax MaxRPM Tau FiltState HP].

(** Decide a closed comparison of rationals by computation. *)
Ltac evaluate :=
  vm_compute; first [reflexivity | discriminate | intro; discriminate].

(** ** Comparisons and the clamps *)

Lemma Qgt_bool_true x y : Qgt_bool x y = true -> y < x.
Proof.
  unfold Qgt_bool. intros H. apply Qnot_le_lt. intros L.
  apply Qle_bool_iff in L. rewrite L in H. discriminate.
Qed.

Lemma Qgt_bool_false x y : Qgt_bool x y = false -> x <= y.
Proof.
  unfold Qgt_bool. intros H. apply Qle_bool_iff.
  destruct (Qle_bool x y); [reflexivity | discriminate].
Qed.

Lemma Qgt_bool_lt x y : y < x -> Qgt_bool x y = true.
Proof.
  intros H. destruct (Qgt_bool x y) eqn:E; [reflexivity|].
  apply Qgt_bool_false in E. lra.
Qed.

Lemma Qgt_bool_le x y : x <= y -> Qgt_bool x y = false.
Proof.
  intros H. destruct (Qgt_bool x y) eqn:E; [|reflexivity].
  apply Qgt_bool_true in E. lra.
Qed.

Lemma dt_floor (t : Q) : 0.0001 <= Qmax 0.0001 t.
Proof. apply Q.le_max_l. Qed.

Lemma alpha_eq (tau d : Q) :
  0 < tau -> 0 < d -> 1 / (1 + tau / d) == d / (d + tau).
Proof. intros. field. split; lra. Qed.

Lemma alpha_bounds (tau d : Q) :
  0 < tau -> 0 < d -> 0 < 1 / (1 + tau / d) /\ 1 / (1 + tau / d) < 1.
Proof.
  intros Ht Hd. rewrite (alpha_eq tau d Ht Hd). split.
  - apply Qlt_shift_div_l; lra.
  - apply Qlt_shift_div_r; lra.
Qed.

(** ** Properties of one call *)

Section OneCall.

Variable U : Units.

Local Abbreviation PowerMax_ftlbssec m :=
  (PowerMax m * wattstohp U * hptoftlbssec U).

(** What the call stores in [FiltState]. *)
Lemma Calculate_FiltState m i u :
  FiltState (self (Calculate U m i u))
  = if Qgt_bool (Tau m) 0
    then 1 / (1 + Tau m / Qmax 0.0001 (TotalDeltaT i)) * measure m i
         + (1 - 1 / (1 + Tau m / Qmax 0.0001 (TotalDeltaT i))) * FiltState m
    else FiltState m.
Proof. unfold measure. by_mode m; reflexivity. Qed.

(** [Calculate] writes [FiltState] and [HP] only. *)
Lemma Calculate_config m i u :
  PowerMax (self (Calculate U m i u)) = PowerMax m /\
  MaxRPM (self (Calculate U m i u)) = MaxRPM m /\
  Tau (self (Calculate U m i u)) = Tau m.
Proof. by_mode m; repeat split. Qed.

(** In the power-command branch the variable read at line 157 is the one
    declared at line 142, whatever the filter block did. *)
Lemma power_command_raw m i u :
  MaxRPM m <= 0 ->
  CmdPower_raw (Calculate U m i u)
  == PowerMax_ftlbssec m * ThrottlePos i
     + GetPowerRequired i - GetPowerRequired i.
Proof.
  intros H. apply Qgt_bool_le in H. unfold Calculate. rewrite H.
  destruct (Qgt_bool (Tau m) 0); cbn; reflexivity.
Qed.

(** C2, as the code has it: with [MaxRPM == 0] and [Tau == 0] the raw
    commanded power is [PowerMax_ftlbssec * throttle + PowerReq - PowerReq],
    computed in this order: line 157 adds the required power and subtracts
    it again.  The thruster gets the minimum of this value and
    [PowerMax_ftlbssec], and [FiltState] is not written.  With zero throttle,
    zero required power and a maximum power that is not negative, the power
    is 0. *)
Theorem C2_power_command_unfiltered m i u :
  MaxRPM m == 0 -> Tau m == 0 ->
  let t := Calculate U m i u in
  CmdPower_raw t
  = PowerMax_ftlbssec m * ThrottlePos i
    + GetPowerRequired i - GetPowerRequired i /\
  to_thruster t
  = Qmin (PowerMax_ftlbssec m * ThrottlePos i
          + GetPowerRequired i - GetPowerRequired i) (PowerMax_ftlbssec m) /\
  FiltState (self t) = FiltState m /\
  (ThrottlePos i == 0 -> GetPowerRequired i == 0 ->
   0 <= PowerMax_ftlbssec m -> to_thruster t == 0).
Proof.
  intros Hm Ht.
  assert (Hm' : Qgt_bool (MaxRPM m) 0 = false) by (apply Qgt_bool_le; lra).
  assert (Ht' : Qgt_bool (Tau m) 0 = false) by (apply Qgt_bool_le; lra).
  unfold Calculate. rewrite Hm', Ht'. cbn.
  split; [reflexivity|]. split; [reflexivity|]. split; [reflexivity|].
  intros Hc Hp Hpos. name_clamps; nra.
Qed.

(** C3: in both modes and for every input, the power handed to the thruster
    is [min(raw commanded power, PowerMax in ft-lbs/sec)]; it never exceeds
    that maximum, and nothing clamps it from below: a raw value that is not
    above the maximum, negative or not, goes through unchanged. *)
Theorem C3_saturation m i u :
  let t := Calculate U m i u in
  to_thruster t = Qmin (CmdPower_raw t) (PowerMax_ftlbssec m) /\
  to_thruster t <= PowerMax_ftlbssec m /\
  (CmdPower_raw t <= PowerMax_ftlbssec m -> to_thruster t == CmdPower_raw t).
Proof.
  assert (E : to_thruster (Calculate U m i u)
              = Qmin (CmdPower_raw (Calculate U m i u)) (PowerMax_ftlbssec m))
    by (by_mode m; reflexivity).
  cbv zeta. rewrite E. split; [reflexivity|].
  split; [|intros L]; name_clamps; lra.
Qed.

(** C8: for every input and both modes, [HP] after the call is the value
    handed to [Thruster->Calculate], the saturated commanded power, divided
    by [hptoftlbssec]. *)
Theorem C8_HP_is_commanded_power m i u :
  let t := Calculate U m i u in
  HP (self t) = to_thruster t / hptoftlbssec U /\
  to_thruster t = Qmin (CmdPower_raw t) (PowerMax_ftlbssec m).
Proof. by_mode m; split; reflexivity. Qed.

(** C9: in power-command mode with the filter on, line 154 reads [CmdPower]
    before anything was assigned to it.  For any two values [u1], [u2] that
    the read can yield, the variable holds [u1 - PowerReq], resp.
    [u2 - PowerReq], until line 157 overwrites it, and what [Calculate]
    produces is the same: the raw and the final commanded power, [HP], and
    the whole object. *)
Theorem C9_indeterminate_CmdPower_unobservable m i u1 u2 :
  MaxRPM m == 0 -> 0 < Tau m ->
  let t1 := Calculate U m i u1 in
  let t2 := Calculate U m i u2 in
  (exists F inner,
     branch t1 = PowerCommand F inner (u1 - GetPowerRequired i) /\
     branch t2 = PowerCommand F inner (u2 - GetPowerRequired i)) /\
  CmdPower_raw t1 = CmdPower_raw t2 /\
  to_thruster t1 = to_thruster t2 /\
  HP (self t1) = HP (self t2) /\
  self t1 = self t2.
Proof.
  intros Hm Ht.
  assert (Hm' : Qgt_bool (MaxRPM m) 0 = false) by (apply Qgt_bool_le; lra).
  apply Qgt_bool_lt in Ht.
  unfold Calculate. rewrite Hm', Ht. cbn.
  split; [do 2 eexists; split; reflexivity | repeat split].
Qed.

(** C5: the lag filter of either mode.  With [Tau > 0] the call computes
    [alpha = 1 / (1 + Tau/dt)], the new filtered value is
    [alpha * raw + (1 - alpha) * FiltState], and that value is the new
    [FiltState]; with [Tau <= 0] the value that stands for the filtered one
    is the raw measurement and [FiltState] keeps its value. *)
Theorem C5_lag_filter m i u :
  let t := Calculate U m i u in
  let raw := measure m i in
  (0 < Tau m ->
   exists alpha filtered,
     alpha_ t = Some alpha /\
     alpha = 1 / (1 + Tau m / dt_ t) /\
     filtered = alpha * raw + (1 - alpha) * FiltState m /\
     FiltState (self t) = filtered /\
     match branch t with
     | RPMCommand _ RPM _ _ => RPM = filtered
     | PowerCommand _ inner _ => inner = Some filtered
     end) /\
  (Tau m <= 0 ->
   FiltState (self t) = FiltState m /\
   match branch t with
   | RPMCommand _ RPM _ _ => RPM = raw
   | PowerCommand PowerReqFilt inner _ => PowerReqFilt = raw /\ inner = None
   end).
Proof.
  cbv zeta. unfold measure. split; intros Ht.
  - apply Qgt_bool_lt in Ht. unfold Calculate. rewrite Ht.
    destruct (Qgt_bool (MaxRPM m) 0); cbn;
      eexists; eexists; repeat split; reflexivity.
  - apply Qgt_bool_le in Ht. unfold Calculate. rewrite Ht.
    destruct (Qgt_bool (MaxRPM m) 0); cbn; repeat split; reflexivity.
Qed.

(** C7, as the code has it: [dt] is [max(0.0001, TotalDeltaT)] whatever
    [TotalDeltaT] is, hence at least 0.0001 and not zero; [alpha] is
    computed exactly when [Tau > 0], and then the divisor [1 + Tau/dt] of
    [1 / (1 + Tau/dt)] is at least 1, hence not zero, and [alpha] lies
    between 0 and 1, both included. *)
Theorem C7_no_division_by_zero m i u :
  let t := Calculate U m i u in
  dt_ t = Qmax 0.0001 (TotalDeltaT i) /\
  0.0001 <= dt_ t /\ ~ dt_ t == 0 /\
  (forall a, alpha_ t = Some a ->
     0 < Tau m /\ a = 1 / (1 + Tau m / dt_ t) /\
     1 <= 1 + Tau m / dt_ t /\ ~ 1 + Tau m / dt_ t == 0 /\
     0 <= a /\ a <= 1) /\
  (0 < Tau m -> exists a, alpha_ t = Some a /\ 0 <= a /\ a <= 1).
Proof.
  cbv zeta.
  assert (Hdt : dt_ (Calculate U m i u) = Qmax 0.0001 (TotalDeltaT i))
    by (by_mode m; reflexivity).
  pose proof (dt_floor (TotalDeltaT i)) as Hfl. rewrite <- Hdt in Hfl.
  assert (Hal : forall a, alpha_ (Calculate U m i u) = Some a ->
            0 < Tau m /\ a = 1 / (1 + Tau m / dt_ (Calculate U m i u))).
  { intros a. rewrite Hdt. by_mode m; intros E; try discriminate E;
      injection E as <-;
      (split; [apply Qgt_bool_true; assumption | reflexivity]). }
  assert (Hpos : 0 < dt_ (Calculate U m i u)) by lra.
  split; [exact Hdt|]. split; [exact Hfl|]. split; [lra|]. split.
  - intros a E. destruct (Hal a E) as [Ht ->].
    destruct (alpha_bounds _ _ Ht Hpos) as [B1 B2].
    assert (0 < Tau m / dt_ (Calculate U m i u))
      by (apply Qlt_shift_div_l; lra).
    repeat split; try assumption; lra.
  - intros Ht. exists (1 / (1 + Tau m / dt_ (Calculate U m i u))). split.
    + rewrite Hdt. apply Qgt_bool_lt in Ht. unfold Calculate. rewrite Ht.
      destruct (Qgt_bool (MaxRPM m) 0); reflexivity.
    + destruct (alpha_bounds _ _ Ht Hpos). split; lra.
Qed.

(** C10: [CalcFuelNeed] returns 0 whatever the state of the motor. *)
Theorem C10_CalcFuelNeed_zero (m : FGElectric) : CalcFuelNeed m = 0.
Proof. reflexivity. Qed.

End OneCall.

(** ** A sequence that shrinks by a constant factor

    [D (S n) == (1 - c) * D n] with [0 < c]: the distance of a
    first-order lag from a constant input. *)

Section Decay.

Variables (D : nat -> Q) (c : Q).
Hypothesis c_pos : 0 < c.
Hypothesis D_nonneg : forall n, 0 <= D n.
Hypothesis D_step : forall n, D (S n) == (1 - c) * D n.

Lemma decay_mono n : D (S n) <= D n.
Proof.
  rewrite D_step. pose proof (D_nonneg n).
  assert (0 <= c * D n) by (apply Qmult_le_0_compat; lra). lra.
Qed.

Lemma of_nat_succ n :
  inject_Z (Z.of_nat (S n)) == inject_Z (Z.of_nat n) + 1.
Proof.
  rewrite Nat2Z.inj_succ. unfold Z.succ. rewrite inject_Z_plus. reflexivity.
Qed.

Lemma of_nat_nonneg n : 0 <= inject_Z (Z.of_nat n).
Proof.
  change 0 with (inject_Z 0). rewrite <- Zle_Qle. apply Nat2Z.is_nonneg.
Qed.

Lemma decay_bound n : D n * (1 + inject_Z (Z.of_nat n) * c) <= D 0%nat.
Proof.
  induction n as [|n IH].
  - change (inject_Z (Z.of_nat 0)) with 0. lra.
  - rewrite of_nat_succ, D_step.
    pose proof (of_nat_nonneg n) as Hk. pose proof (D_nonneg n) as Hd.
    set (k := inject_Z (Z.of_nat n)) in *. set (d := D n) in *.
    assert (0 <= d * ((k + 1) * (c * c)))
      by (repeat apply Qmult_le_0_compat; lra).
    lra.
Qed.

Lemma decay_limit eps :
  0 < eps -> exists N, forall n, (N <= n)%nat -> D n < eps.
Proof.
  intros He.
  assert (Hce : 0 < c * eps) by (apply Qmult_lt_0_compat; assumption).
  destruct (Qarchimedean (D 0%nat / (c * eps))) as [p Hp].
  exists (Pos.to_nat p). intros n Hn.
  pose proof (decay_bound n) as Hb. pose proof (D_nonneg n) as Hd.
  assert (Hk : inject_Z (Z.pos p) <= inject_Z (Z.of_nat n)).
  { rewrite <- Zle_Qle. lia. }
  change (Z.pos p # 1) with (inject_Z (Z.pos p)) in Hp.
  set (k := inject_Z (Z.of_nat n)) in *. set (d := D n) in *.
  assert (H0 : D 0%nat < k * (c * eps)).
  { apply Qlt_le_trans with (inject_Z (Z.pos p) * (c * eps)).
    - assert (E : D 0%nat == D 0%nat / (c * eps) * (c * eps))
        by (field; lra).
      apply Qle_lt_trans with (D 0%nat / (c * eps) * (c * eps)).
      + rewrite <- E. apply Qle_refl.
      + apply Qmult_lt_compat_r; assumption.
    - apply Qmult_le_compat_r; lra. }
  destruct (Qlt_le_dec d eps) as [|Hge]; [assumption|exfalso].
  assert (0 <= k * c)
    by (apply Qmult_le_0_compat; [unfold k; apply of_nat_nonneg | lra]).
  assert (0 <= (d - eps) * (1 + k * c))
    by (apply Qmult_le_0_compat; lra).
  lra.
Qed.

End Decay.

(** ** Properties of a sequence of calls

    The lemmas of the sections [Decay] and [ConstantPower] are facts of
    exact arithmetic; the theorems about the code are stated without
    them. *)

Section Calls.

Variable U : Units.


(** The configuration, and with it the mode, never changes. *)
Lemma reachable_config m0 m :
  reachable U m0 m ->
  PowerMax m = PowerMax m0 /\ MaxRPM m = MaxRPM m0 /\ Tau m = Tau m0.
Proof.
  induction 1 as [|m i u _ (IH1 & IH2 & IH3)]; [repeat split|].
  destruct (Calculate_config U m i u)
    as (-> & -> & ->).
  repeat split; assumption.
Qed.

Lemma run_config m ins ind n :
  PowerMax (run U m ins ind n) = PowerMax m /\
  MaxRPM (run U m ins ind n) = MaxRPM m /\
  Tau (run U m ins ind n) = Tau m.
Proof.
  induction n as [|n (IH1 & IH2 & IH3)]; [repeat split|]. cbn [run].
  destruct (Calculate_config U
              (run U m ins ind n) (ins n) (ind n)) as (-> & -> & ->).
  repeat split; assumption.
Qed.

(** C4, as the code has it: in RPM-command mode ([MaxRPM > 0]), for every
    throttle and thruster feedback and every state of the object: the
    commanded RPM is [min(MaxRPM * throttle, MaxRPM)]; the actual RPM is
    [min(thruster RPM * gear ratio, MaxRPM)] and, when [Tau > 0], the blend
    of that value with [FiltState]; the raw commanded power is
    [|torque| / gear ratio * ((commanded - actual) * rpmtoradpsec)
     + power required].  The commanded RPM and the clamped actual RPM never
    exceed [MaxRPM], nor does the RPM that is compared when the filter is
    off. *)
Theorem C4_rpm_command m i u :
  0 < MaxRPM m ->
  let t := Calculate U m i u in
  let clamped := Qmin (GetRPM i * GetGearRatio i) (MaxRPM m) in
  exists CmdRPM RPM DeltaRPM TorqueReq,
    branch t = RPMCommand CmdRPM RPM DeltaRPM TorqueReq /\
    CmdRPM = Qmin (MaxRPM m * ThrottlePos i) (MaxRPM m) /\
    RPM = (if Qgt_bool (Tau m) 0
           then 1 / (1 + Tau m / dt_ t) * clamped
                + (1 - 1 / (1 + Tau m / dt_ t)) * FiltState m
           else clamped) /\
    DeltaRPM = CmdRPM - RPM /\
    TorqueReq = Qabs (GetTorque i) / GetGearRatio i /\
    CmdPower_raw t
    = TorqueReq * (DeltaRPM * rpmtoradpsec U) + GetPowerRequired i /\
    CmdRPM <= MaxRPM m /\ clamped <= MaxRPM m /\
    (Tau m <= 0 -> RPM <= MaxRPM m).
Proof.
  intros Hm. cbv zeta. unfold Calculate. rewrite (Qgt_bool_lt _ _ Hm).
  destruct (Qgt_bool (Tau m) 0) eqn:Ht; cbn;
    do 4 eexists; (split; [reflexivity|]);
    repeat (split; [reflexivity|]);
    (split; [apply Q.le_min_r|]); (split; [apply Q.le_min_r|]); intros Hle.
  - apply Qgt_bool_true in Ht. lra.
  - apply Q.le_min_r.
Qed.

Section ConstantPower.

Variables (m : FGElectric) (ins : nat -> Inputs) (ind : nat -> Q).
Variables (P dt0 : Q).
Hypothesis power_mode : MaxRPM m == 0.
Hypothesis filter_on : 0 < Tau m.
Hypothesis constant_power : forall k, GetPowerRequired (ins k) == P.
Hypothesis fixed_dt : forall k, TotalDeltaT (ins k) == dt0.

Local Abbreviation Filt n := (FiltState (run U m ins ind n)).
Local Abbreviation alpha0 := (1 / (1 + Tau m / Qmax 0.0001 dt0)).

Lemma alpha0_bounds : 0 < alpha0 /\ alpha0 < 1.
Proof.
  pose proof (dt_floor dt0). apply alpha_bounds; [exact filter_on | lra].
Qed.

(** One timestep moves [FiltState] towards [P] by the factor [1 - alpha]. *)
Lemma filter_step n : Filt (S n) - P == (1 - alpha0) * (Filt n - P).
Proof.
  cbn [run]. rewrite Calculate_FiltState. unfold measure.
  destruct (run_config m ins ind n) as (_ & -> & ->).
  rewrite (Qgt_bool_lt _ _ filter_on).
  assert (Hm : Qgt_bool (MaxRPM m) 0 = false) by (apply Qgt_bool_le; lra).
  rewrite Hm, constant_power,
    (Q.max_compat _ _ (Qeq_refl 0.0001) _ _ (fixed_dt n)).
  ring.
Qed.

Lemma filter_distance_step n :
  Qabs (Filt (S n) - P) == (1 - alpha0) * Qabs (Filt n - P).
Proof.
  destruct alpha0_bounds as [A0 A1].
  rewrite filter_step, Qabs_Qmult, (Qabs_pos (1 - alpha0));
    [reflexivity | lra].
Qed.

(** The side of [P] on which [FiltState] starts is the side it stays on. *)
Lemma filter_below n :
  Filt 0%nat <= P -> Filt n <= Filt (S n) /\ Filt (S n) <= P.
Proof.
  intros H0. destruct alpha0_bounds as [A0 A1].
  assert (Hn : Filt n <= P).
  { induction n as [|n IH]; [exact H0|].
    pose proof (filter_step n) as E.
    assert (0 <= (1 - alpha0) * (P - Filt n))
      by (apply Qmult_le_0_compat; lra).
    lra. }
  pose proof (filter_step n) as E.
  assert (0 <= (1 - alpha0) * (P - Filt n)) by (apply Qmult_le_0_compat; lra).
  assert (0 <= alpha0 * (P - Filt n)) by (apply Qmult_le_0_compat; lra).
  split; lra.
Qed.

Lemma filter_above n :
  P <= Filt 0%nat -> P <= Filt (S n) /\ Filt (S n) <= Filt n.
Proof.
  intros H0. destruct alpha0_bounds as [A0 A1].
  assert (Hn : P <= Filt n).
  { induction n as [|n IH]; [exact H0|].
    pose proof (filter_step n) as E.
    assert (0 <= (1 - alpha0) * (Filt n - P))
      by (apply Qmult_le_0_compat; lra).
    lra. }
  pose proof (filter_step n) as E.
  assert (0 <= (1 - alpha0) * (Filt n - P)) by (apply Qmult_le_0_compat; lra).
  assert (0 <= alpha0 * (Filt n - P)) by (apply Qmult_le_0_compat; lra).
  split; lra.
Qed.

Lemma filter_distance_limit eps :
  0 < eps -> exists N, forall n, (N <= n)%nat -> Qabs (Filt n - P) < eps.
Proof.
  destruct alpha0_bounds as [A0 A1].
  apply (decay_limit (fun n => Qabs (Filt n - P)) alpha0).
  - exact A0.
  - intros n. apply Qabs_nonneg.
  - exact filter_distance_step.
Qed.

(** The filter output of call [n], the variable of line 146, is what the
    call stores in [FiltState]. *)
Lemma filter_output n :
  branch (Calculate U (run U m ins ind n) (ins n) (ind n))
  = PowerCommand (GetPowerRequired (ins n)) (Some (Filt (S n)))
      (ind n - GetPowerRequired (ins n)).
Proof.
  cbn [run]. unfold Calculate.
  destruct (run_config m ins ind n) as (_ & -> & ->).
  rewrite (Qgt_bool_lt _ _ filter_on).
  assert (Hm : Qgt_bool (MaxRPM m) 0 = false) by (apply Qgt_bool_le; lra).
  rewrite Hm. reflexivity.
Qed.

(** In exact arithmetic, and there only, the recurrence converges: with
    [MaxRPM == 0] and [Tau > 0], a required power held at [P] and a fixed
    [TotalDeltaT], the distance [|FiltState - P|] never grows, [FiltState]
    stays on the side of [P] where it started, and the distance tends to
    0.  On binary64 numbers none of the three holds: see
    [C6_counterexample]. *)
Lemma filter_converges_in_exact_arithmetic :
  let F := fun n => FiltState (run U m ins ind n) in
  (forall n, Qabs (F (S n) - P) <= Qabs (F n - P)) /\
  (F 0%nat <= P -> forall n, F n <= F (S n) /\ F (S n) <= P) /\
  (P <= F 0%nat -> forall n, P <= F (S n) /\ F (S n) <= F n) /\
  (forall eps, 0 < eps ->
     exists N, forall n, (N <= n)%nat -> Qabs (F n - P) < eps) /\
  (forall eps, 0 < eps ->
     exists N, forall n, (N <= n)%nat ->
       exists filtered,
         branch (Calculate U (run U m ins ind n) (ins n) (ind n))
         = PowerCommand (GetPowerRequired (ins n)) (Some filtered)
             (ind n - GetPowerRequired (ins n)) /\
         Qabs (GetPowerRequired (ins n) - filtered) < eps).
Proof.
  cbv beta zeta. destruct alpha0_bounds as [A0 A1].
  split; [|split; [|split; [|split]]].
  - intros n. rewrite filter_distance_step.
    pose proof (Qabs_nonneg (Filt n - P)).
    assert (0 <= alpha0 * Qabs (Filt n - P)) by (apply Qmult_le_0_compat; lra).
    lra.
  - intros H0 n. apply filter_below, H0.
  - intros H0 n. apply filter_above, H0.
  - exact filter_distance_limit.
  - intros eps He. destruct (filter_distance_limit eps He) as [N HN].
    exists N. intros n Hn. exists (Filt (S n)). split; [apply filter_output|].
    rewrite constant_power, Qabs_Qminus. apply HN. lia.
Qed.

End ConstantPower.

Section ConstantPowerCalls.

Variables (m : FGElectric) (ins : nat -> Inputs) (ind : nat -> Q).
Variables (P dt0 : Q).
Hypothesis power_command : MaxRPM m == 0.
Hypothesis lag_filter_on : 0 < Tau m.
Hypothesis power_held : forall k, GetPowerRequired (ins k) = P.
Hypothesis timestep_held : forall k, TotalDeltaT (ins k) = dt0.


End ConstantPowerCalls.

End Calls.

(** ** The code at concrete inputs *)

(** Scenario A of the specification: 1000 W, power command, no filter, half
    throttle, nothing required: half of 1000 W in ft-lbs/sec. *)
Example scenario_A :
  let m := FGElectric_ctor (Some 1000) None None 0 0 in
  let i := mkInputs 0.5 0.01 0 1 0 0 in
  to_thruster (Sample.Calculate m i 0)
  == 0.5 * (1000 * wattstohp Sample.units * hptoftlbssec Sample.units).
Proof. evaluate. Qed.

(** Scenario B of the specification: RPM command, 2000 RPM, full throttle,
    a propeller at rest with a torque of 100 ft-lbs: commanded RPM 2000, an
    RPM error of 2000, a raw power of 100 * (2000 RPM in rad/s), saturated at
    the maximum power. *)
Example scenario_B :
  let m := FGElectric_ctor (Some 745.7) (Some 2000) None 0 0 in
  let i := mkInputs 1 0.01 0 1 0 100 in
  let t := Sample.Calculate m i 0 in
  branch t = RPMCommand (Qmin (2000 * 1) 2000) (Qmin (0 * 1) 2000)
               (Qmin (2000 * 1) 2000 - Qmin (0 * 1) 2000) (Qabs 100 / 1) /\
  CmdPower_raw t == 100 * (2000 * rpmtoradpsec Sample.units) /\
  to_thruster t == 550.
Proof. split; [reflexivity | split; evaluate]. Qed.

(** C1, at a concrete input: power command, [Tau] = 1 s, a step of 1 s, an
    empty filter, 100 ft-lbs/sec required, half throttle of 550 ft-lbs/sec.
    The filter output of this timestep is 50 and it is stored in
    [FiltState], but line 157 reads the variable of line 142, which the
    declaration of line 146 hides inside the filter block: the raw commanded
    power is 275 + 100 - 100 = 275, not 275 + 100 - 50 = 325, and 275 is
    what reaches the thruster. *)
Theorem C1_filter_output_not_subtracted :
  let m := Sample.motor_lag in
  let i := Sample.in_half in
  let t := Sample.Calculate m i 0 in
  let PowerMax_ftlbssec :=
    PowerMax m * wattstohp Sample.units * hptoftlbssec Sample.units in
  MaxRPM m == 0 /\ 0 < Tau m /\
  exists filtered,
    branch t = PowerCommand (GetPowerRequired i) (Some filtered)
                 (0 - GetPowerRequired i) /\
    filtered == 50 /\ FiltState (self t) == 50 /\
    PowerMax_ftlbssec * ThrottlePos i + GetPowerRequired i - filtered == 325 /\
    CmdPower_raw t == 275 /\
    ~ CmdPower_raw t
      == PowerMax_ftlbssec * ThrottlePos i + GetPowerRequired i - filtered /\
    to_thruster t == 275.
Proof.
  cbv zeta. split; [evaluate|]. split; [evaluate|].
  eexists. split; [reflexivity|]. repeat split; evaluate.
Qed.

(** C2 fails as stated, at two inputs with [MaxRPM == 0] and [Tau == 0].
    Half throttle of 550 ft-lbs/sec with 100 ft-lbs/sec required: the power
    is 275, not min(275 + 100, 550) = 375.  Zero throttle and nothing
    required on a motor configured with -745.7 W: the power is -550, not
    0. *)
Lemma C2_counterexample :
  (let m := Sample.motor_plain in
   let i := Sample.in_half in
   let PowerMax_ftlbssec :=
     PowerMax m * wattstohp Sample.units * hptoftlbssec Sample.units in
   MaxRPM m == 0 /\ Tau m == 0 /\
   to_thruster (Sample.Calculate m i 0) == 275 /\
   ~ to_thruster (Sample.Calculate m i 0)
     == Qmin (PowerMax_ftlbssec * ThrottlePos i + GetPowerRequired i)
          PowerMax_ftlbssec) /\
  (let m := Sample.motor_negative in
   let i := Sample.in_idle in
   MaxRPM m == 0 /\ Tau m == 0 /\
   ThrottlePos i == 0 /\ GetPowerRequired i == 0 /\
   to_thruster (Sample.Calculate m i 0) == -550 /\
   ~ to_thruster (Sample.Calculate m i 0) == 0).
Proof. cbv zeta. repeat split; evaluate. Qed.

(** ** The code on binary64 numbers at concrete inputs *)


(** C4 fails as stated for the lag-filtered RPM.  A motor built with
    [maxrpm] 2000 and [tau] 1 s, called 120 times per second at full
    throttle on a propeller held at 2000 RPM: every measurement is clamped
    to 2000, yet the blend that the call 3896 compares, and stores in
    [FiltState], is above 2000 (it is 2000.0000000000002). *)
Lemma C4_counterexample :
  let U := Binary64.units in
  let i := Binary64.in_full_rpm in
  let m := Binary64.run U Binary64.motor_rpm i 3895 in
  Binary64.gt (Binary64.MaxRPM m) Binary64.zero = true /\
  exists RPM,
    Binary64.RPM_ (Binary64.Calculate U m i Binary64.zero) = Some RPM /\
    Binary64.FiltState (Binary64.run U Binary64.motor_rpm i 3896) = RPM /\
    PrimFloat.ltb (Binary64.MaxRPM m) RPM = true.
Proof.
  cbv zeta. split; [vm_compute; reflexivity|].
  eexists. split; [vm_compute; reflexivity|].
  split; vm_compute; reflexivity.
Qed.


(** C7 fails as stated for the strict bounds on [alpha].  With [Tau] =
    2^-70 s and a step of 1 s, [1 + Tau/dt] rounds to 1 and [alpha] is 1.
    With [Tau] = 2^1023 s and a step of 0 s, which the code replaces by
    0.0001 s, [Tau/dt] overflows and [alpha] is 0. *)
Lemma C7_counterexample :
  let U := Binary64.units in
  let i := Binary64.in_second in
  (Binary64.gt (Binary64.Tau Binary64.motor_tiny_tau) Binary64.zero = true /\
   Binary64.alpha_
     (Binary64.Calculate U Binary64.motor_tiny_tau i Binary64.zero)
   = Some Binary64.one) /\
  (Binary64.gt (Binary64.Tau Binary64.motor_huge_tau) Binary64.zero = true /\
   Binary64.alpha_
     (Binary64.Calculate U Binary64.motor_huge_tau Binary64.in_floor
        Binary64.zero)
   = Some Binary64.zero).
Proof. cbv zeta. repeat split; vm_compute; reflexivity. Qed.

(** ** The theorems at concrete inputs *)

(** C2 at the motor without filter, idle: the power is 0. *)
Lemma C2_witness :
  to_thruster (Sample.Calculate Sample.motor_plain Sample.in_idle 0) == 0.
Proof.
  destruct (C2_power_command_unfiltered Sample.units
              Sample.motor_plain Sample.in_idle 0) as (_ & _ & _ & H);
    [evaluate | evaluate |].
  apply H; evaluate.
Defined.

(** C3 at full reverse throttle: the raw power, -550 ft-lbs/sec, is below
    the maximum and reaches the thruster unchanged. *)
Lemma C3_witness :
  let t := Sample.Calculate Sample.motor_plain Sample.in_reverse 0 in
  to_thruster t == CmdPower_raw t.
Proof.
  destruct (C3_saturation Sample.units
              Sample.motor_plain Sample.in_reverse 0) as (_ & _ & H).
  apply H. evaluate.
Defined.

(** C4 on the RPM-command motor after one call, with throttle 3 and a
    propeller at 10000 motor RPM. *)
Lemma C4_witness :
  let m := self (Sample.Calculate Sample.motor_rpm Sample.in_half 0) in
  let t := Sample.Calculate m Sample.in_overspeed 0 in
  exists CmdRPM RPM DeltaRPM TorqueReq,
    branch t = RPMCommand CmdRPM RPM DeltaRPM TorqueReq /\
    CmdRPM <= MaxRPM m /\
    Qmin (GetRPM Sample.in_overspeed * GetGearRatio Sample.in_overspeed)
      (MaxRPM m) <= MaxRPM m.
Proof.
  destruct (C4_rpm_command Sample.units
              (self (Sample.Calculate Sample.motor_rpm Sample.in_half 0))
              Sample.in_overspeed 0)
    as (c & r & d & q & Hb & _ & _ & _ & _ & _ & Hc & Hr & _).
  - evaluate.
  - exists c, r, d, q. repeat split; assumption.
Defined.

(** C5 on a motor with the filter on and on a motor with the filter off. *)
Lemma C5_witness :
  (let t := Sample.Calculate Sample.motor_lag Sample.in_half 0 in
   exists alpha,
     alpha_ t = Some alpha /\
     FiltState (self t)
     = alpha * GetPowerRequired Sample.in_half
       + (1 - alpha) * FiltState Sample.motor_lag) /\
  (let t := Sample.Calculate Sample.motor_plain Sample.in_half 0 in
   FiltState (self t) = FiltState Sample.motor_plain).
Proof.
  split.
  - destruct (C5_lag_filter Sample.units
              Sample.motor_lag Sample.in_half 0) as [H _].
    destruct H as (a & f & Ha & _ & Hf & HF & _); [evaluate|].
    exists a. split; [exact Ha|]. cbv zeta. unfold Sample.Calculate.
    rewrite HF, Hf. reflexivity.
  - destruct (C5_lag_filter Sample.units
              Sample.motor_plain Sample.in_half 0) as [_ H].
    destruct H as (HF & _); [evaluate|]. exact HF.
Defined.


(** C7 at a timestep of -1 s. *)
Lemma C7_witness :
  let t := Sample.Calculate Sample.motor_lag Sample.in_negative_dt 0 in
  exists a, alpha_ t = Some a /\ 0 <= a /\ a <= 1.
Proof.
  destruct (C7_no_division_by_zero Sample.units
              Sample.motor_lag Sample.in_negative_dt 0) as (_ & _ & _ & _ & H).
  apply H. evaluate.
Defined.

(** C9 with 0 and 7 as the two values found in [CmdPower]. *)
Lemma C9_witness :
  to_thruster (Sample.Calculate Sample.motor_lag Sample.in_half 0)
  = to_thruster (Sample.Calculate Sample.motor_lag Sample.in_half 7).
Proof.
  destruct (C9_indeterminate_CmdPower_unobservable Sample.units
              Sample.motor_lag Sample.in_half 0 7) as (_ & _ & H & _);
    [evaluate | evaluate | exact H].
Defined.

(** ** Further properties of one call *)

Section MoreOneCall.

Variable U : Units.

Local Abbreviation PowerMax_ftlbssec m :=
  (PowerMax m * wattstohp U * hptoftlbssec U).

(** The power handed to the thruster in the power-command branch, with the
    required power cancelled: an identity of exact arithmetic, used in
    proofs only. *)
Lemma power_command_output m i u :
  MaxRPM m <= 0 ->
  to_thruster (Calculate U m i u)
  == Qmin (PowerMax_ftlbssec m * ThrottlePos i) (PowerMax_ftlbssec m).
Proof.
  intros H. apply Qgt_bool_le in H. unfold Calculate. rewrite H.
  destruct (Qgt_bool (Tau m) 0); cbn; name_clamps; lra.
Qed.

(** X3: in power-command mode with a maximum power and a throttle that are
    not negative, the power handed to the thruster lies between 0 and
    [PowerMax_ftlbssec], whatever [Tau], [FiltState] and the thruster
    feedback, the required power included, are. *)
Theorem power_command_throttle_range m i u :
  MaxRPM m <= 0 -> 0 <= PowerMax_ftlbssec m -> 0 <= ThrottlePos i ->
  0 <= to_thruster (Calculate U m i u) <= PowerMax_ftlbssec m.
Proof.
  intros Hm Hp Hc. rewrite (power_command_output m i u Hm).
  split; name_clamps; nra.
Qed.

(** X4: in power-command mode with a maximum power that is not negative,
    more throttle never gives less power: of two calls with the same
    required power on motors with the same [PowerMax], the one with the
    larger throttle hands at least as much power to the thruster, whatever
    the filter states, [Tau] and the timesteps are. *)
Theorem power_command_monotone m1 m2 i1 i2 u1 u2 :
  MaxRPM m1 <= 0 -> MaxRPM m2 <= 0 -> PowerMax m1 = PowerMax m2 ->
  GetPowerRequired i1 = GetPowerRequired i2 ->
  0 <= PowerMax_ftlbssec m1 ->
  ThrottlePos i1 <= ThrottlePos i2 ->
  to_thruster (Calculate U m1 i1 u1) <= to_thruster (Calculate U m2 i2 u2).
Proof.
  (* The two required powers cancel in exact arithmetic; that they are equal
     is what the statement needs when they cancel up to rounding only. *)
  intros H1 H2 E _ Hp Hc.
  rewrite (power_command_output m1 i1 u1 H1),
    (power_command_output m2 i2 u2 H2).
  rewrite <- E. name_clamps; nra.
Qed.

(** X5: with a positive [hptoftlbssec], [HP] after a call is never above
    the maximum power in ft-lbs/sec divided by [hptoftlbssec], the
    conversion that line 164 applies to the commanded power. *)
Theorem HP_bounded m i u :
  0 < hptoftlbssec U ->
  ~ PowerMax_ftlbssec m / hptoftlbssec U < HP (self (Calculate U m i u)).
Proof.
  intros Hh. apply Qle_not_lt.
  assert (E : HP (self (Calculate U m i u))
              = to_thruster (Calculate U m i u) / hptoftlbssec U)
    by (by_mode m; reflexivity).
  assert (L : to_thruster (Calculate U m i u) <= PowerMax_ftlbssec m)
    by (by_mode m; apply Q.le_min_r).
  rewrite E. apply Qle_shift_div_l; [exact Hh|].
  assert (E' : to_thruster (Calculate U m i u) / hptoftlbssec U
               * hptoftlbssec U == to_thruster (Calculate U m i u))
    by (field; lra).
  rewrite E'. exact L.
Qed.

(** What the RPM-command branch leaves in its locals and in [CmdPower]. *)
Lemma rpm_command_trace m i u :
  0 < MaxRPM m ->
  exists CmdRPM RPM,
    branch (Calculate U m i u)
    = RPMCommand CmdRPM RPM (CmdRPM - RPM)
        (Qabs (GetTorque i) / GetGearRatio i) /\
    CmdRPM = Qmin (MaxRPM m * ThrottlePos i) (MaxRPM m) /\
    (Tau m <= 0 -> RPM = Qmin (GetRPM i * GetGearRatio i) (MaxRPM m)) /\
    CmdPower_raw (Calculate U m i u)
    = Qabs (GetTorque i) / GetGearRatio i
      * ((CmdRPM - RPM) * rpmtoradpsec U) + GetPowerRequired i /\
    to_thruster (Calculate U m i u)
    = Qmin (CmdPower_raw (Calculate U m i u)) (PowerMax_ftlbssec m).
Proof.
  intros Hm. unfold Calculate. rewrite (Qgt_bool_lt _ _ Hm).
  destruct (Qgt_bool (Tau m) 0) eqn:Ht; cbn; do 2 eexists;
    (split; [reflexivity|]); (split; [reflexivity|]);
    (split; [|split; reflexivity]); intros Hle.
  - apply Qgt_bool_true in Ht. lra.
  - reflexivity.
Qed.

(** X6: in RPM-command mode, with a throttle that is not negative, a gear
    ratio that is not zero and a torque demand [|torque| / |gear ratio|]
    within the range of the doubles: when the RPM that the branch compares
    (the clamped, possibly filtered one) equals the commanded RPM, the raw
    commanded power is exactly the power the thruster requires, and the
    thruster gets that power capped at the maximum.  Without filter this is
    the case in particular at full throttle (1 or more) on a propeller at or
    above [MaxRPM]. *)
Theorem rpm_command_on_target m i u :
  0 < MaxRPM m -> 0 <= ThrottlePos i ->
  ~ GetGearRatio i == 0 ->
  Qabs (GetTorque i) <= DBL_MAX * Qabs (GetGearRatio i) ->
  let t := Calculate U m i u in
  exists CmdRPM RPM DeltaRPM TorqueReq,
    branch t = RPMCommand CmdRPM RPM DeltaRPM TorqueReq /\
    (CmdRPM == RPM ->
     CmdPower_raw t == GetPowerRequired i /\
     to_thruster t == Qmin (GetPowerRequired i) (PowerMax_ftlbssec m)) /\
    (Tau m <= 0 -> 1 <= ThrottlePos i ->
     MaxRPM m <= GetRPM i * GetGearRatio i ->
     CmdRPM == RPM).
Proof.
  (* The last three hypotheses keep the commanded RPM and the torque demand
     of the code finite, so that a zero RPM error gives a zero correction;
     on the rationals nothing overflows and they are not used. *)
  intros Hm _ _ _. cbv zeta.
  destruct (rpm_command_trace m i u Hm)
    as (c & r & Hb & Hc & Hr & Hraw & Hout).
  exists c, r, (c - r), (Qabs (GetTorque i) / GetGearRatio i).
  split; [exact Hb|]. split.
  - intros E. rewrite Hout, Hraw.
    assert (E' : Qabs (GetTorque i) / GetGearRatio i
                 * ((c - r) * rpmtoradpsec U) + GetPowerRequired i
                 == GetPowerRequired i).
    { assert (Z : c - r == 0) by lra. rewrite Z. ring. }
    split; [exact E'|]. name_clamps; lra.
  - intros Ht Hc1 Hr1. rewrite (Hr Ht), Hc. name_clamps; nra.
Qed.


(** [max(0.0001, t)] is 0.0001 itself for every [t] up to 0.0001. *)
Lemma Qmax_floor (t : Q) : t <= 0.0001 -> Qmax 0.0001 t = 0.0001.
Proof.
  intros H. unfold Qmax, GenericMinMax.gmax.
  destruct (0.0001 ?= t) eqn:E; try reflexivity.
  apply Qlt_alt in E. lra.
Qed.

(** X10: a timestep of 0.0001 s or less, zero and negative ones included, is
    treated exactly as a timestep of 0.0001 s. *)
Theorem small_timestep_is_floor m i u :
  TotalDeltaT i <= 0.0001 ->
  Calculate U m i u = Calculate U m (with_TotalDeltaT i 0.0001) u.
Proof.
  intros H. unfold Calculate, with_TotalDeltaT.
  cbn [ThrottlePos TotalDeltaT GetPowerRequired GetGearRatio GetRPM GetTorque].
  rewrite (Qmax_floor _ H), (Qmax_floor 0.0001 (Qle_refl _)). reflexivity.
Qed.

(** X11: with the filter off ([Tau <= 0]) the commanded power and [HP] depend
    neither on the timestep nor on what [FiltState] and [HP] held before, and
    [FiltState] is left as it was. *)
Theorem unfiltered_call_is_stateless m i u t' filt hp :
  Tau m <= 0 ->
  let t1 := Calculate U m i u in
  let t2 := Calculate U (with_state m filt hp) (with_TotalDeltaT i t') u in
  CmdPower_raw t2 = CmdPower_raw t1 /\
  to_thruster t2 = to_thruster t1 /\
  HP (self t2) = HP (self t1) /\
  FiltState (self t2) = filt /\ FiltState (self t1) = FiltState m.
Proof.
  intros Ht. apply Qgt_bool_le in Ht. unfold Calculate.
  cbn [with_state with_TotalDeltaT set_HP set_FiltState
       PowerMax MaxRPM Tau FiltState HP
       ThrottlePos TotalDeltaT GetPowerRequired GetGearRatio GetRPM GetTorque].
  rewrite Ht. destruct (Qgt_bool (MaxRPM m) 0); cbn; repeat split.
Qed.

Lemma alpha_mono (tau d1 d2 : Q) :
  0 < tau -> 0 < d1 -> d1 <= d2 ->
  1 / (1 + tau / d1) <= 1 / (1 + tau / d2).
Proof.
  intros Ht H1 H2. rewrite (alpha_eq tau d1), (alpha_eq tau d2) by lra.
  apply Qle_shift_div_l; [lra|].
  assert (E : d1 / (d1 + tau) * (d2 + tau) == d1 * (d2 + tau) / (d1 + tau))
    by (field; lra).
  rewrite E. apply Qle_shift_div_r; [lra|].
  assert (0 <= tau * (d2 - d1)) by (apply Qmult_le_0_compat; lra). lra.
Qed.

(** X13: with the filter on, a longer timestep never gives a smaller blend
    factor: [alpha] grows with [TotalDeltaT], between 0 and 1, so the filter
    tracks its input faster. *)
Theorem alpha_grows_with_timestep m i1 i2 u1 u2 :
  0 < Tau m -> TotalDeltaT i1 <= TotalDeltaT i2 ->
  exists a1 a2,
    alpha_ (Calculate U m i1 u1) = Some a1 /\
    alpha_ (Calculate U m i2 u2) = Some a2 /\
    0 <= a1 /\ a1 <= a2 /\ a2 <= 1.
Proof.
  intros Ht Hd.
  pose proof (dt_floor (TotalDeltaT i1)) as F1.
  pose proof (dt_floor (TotalDeltaT i2)) as F2.
  exists (1 / (1 + Tau m / Qmax 0.0001 (TotalDeltaT i1))),
         (1 / (1 + Tau m / Qmax 0.0001 (TotalDeltaT i2))).
  split; [|split].
  - apply Qgt_bool_lt in Ht. unfold Calculate. rewrite Ht.
    destruct (Qgt_bool (MaxRPM m) 0); reflexivity.
  - apply Qgt_bool_lt in Ht. unfold Calculate. rewrite Ht.
    destruct (Qgt_bool (MaxRPM m) 0); reflexivity.
  - destruct (alpha_bounds (Tau m) (Qmax 0.0001 (TotalDeltaT i1)) Ht)
      as [A _]; [lra|].
    destruct (alpha_bounds (Tau m) (Qmax 0.0001 (TotalDeltaT i2)) Ht)
      as [_ B]; [lra|].
    split; [lra|]. split; [|lra].
    apply alpha_mono; [exact Ht | lra |].
    apply Q.max_le_compat_l. exact Hd.
Qed.

End MoreOneCall.

(** ** Further properties of a sequence of calls *)

Section MoreCalls.

Variable U : Units.

(** X1: no call changes the configuration, so a motor stays in the mode it
    was built in: whatever calls came before, every call takes the
    RPM-command branch if [MaxRPM > 0] held at the start and the
    power-command branch otherwise. *)
Theorem mode_never_changes m0 m i u :
  reachable U m0 m ->
  PowerMax m = PowerMax m0 /\ MaxRPM m = MaxRPM m0 /\ Tau m = Tau m0 /\
  is_RPMCommand (branch (Calculate U m i u)) = Qgt_bool (MaxRPM m0) 0.
Proof.
  intros R. destruct (reachable_config U m0 m R) as (E1 & E2 & E3).
  repeat (split; [assumption|]). rewrite <- E2. by_mode m; reflexivity.
Qed.

(** X9: with the filter off ([Tau <= 0]) no sequence of calls ever writes
    [FiltState]. *)
Theorem unfiltered_run_keeps_FiltState m ins ind n :
  Tau m <= 0 -> FiltState (run U m ins ind n) = FiltState m.
Proof.
  intros Ht. apply Qgt_bool_le in Ht.
  induction n as [|n IH]; [reflexivity|]. cbn [run].
  rewrite Calculate_FiltState.
  destruct (run_config U m ins ind n) as (_ & _ & ->). rewrite Ht. exact IH.
Qed.

(** X2: a motor built from a configuration without [maxrpm] and [tau] stays
    the motor without these options: at every call of every sequence the
    power-command branch runs without filter, the raw commanded power is
    [PowerMax_ftlbssec * throttle + PowerReq - PowerReq], the thruster gets
    the minimum of that and [PowerMax_ftlbssec], [HP] is what the thruster
    gets over [hptoftlbssec], and [FiltState] stays 0. *)
Theorem legacy_configuration power P0 H0 ins ind n :
  let m0 := FGElectric_ctor power None None P0 H0 in
  let t := Calculate U (run U m0 ins ind n) (ins n) (ind n) in
  let PowerMax_ftlbssec := PowerMax m0 * wattstohp U * hptoftlbssec U in
  let raw :=
    PowerMax_ftlbssec * ThrottlePos (ins n)
    + GetPowerRequired (ins n) - GetPowerRequired (ins n) in
  branch t = PowerCommand (GetPowerRequired (ins n)) None (ind n) /\
  alpha_ t = None /\
  CmdPower_raw t = raw /\
  to_thruster t = Qmin raw PowerMax_ftlbssec /\
  HP (self t) = Qmin raw PowerMax_ftlbssec / hptoftlbssec U /\
  FiltState (self t) = 0.
Proof.
  cbv zeta. set (m0 := FGElectric_ctor power None None P0 H0).
  assert (HF : FiltState (run U m0 ins ind n) = 0)
    by (rewrite unfiltered_run_keeps_FiltState; [reflexivity | cbn; lra]).
  destruct (run_config U m0 ins ind n) as (EP & EM & ET).
  unfold Calculate. rewrite EP, EM, ET. cbn. repeat split. exact HF.
Qed.

End MoreCalls.

(** ** Console output and labels *)

Lemma flag_low_bits (l mask : Z) :
  Z.land 3 mask = mask -> flag (Z.land l 3) mask = flag l mask.
Proof. intros E. unfold flag. rewrite <- Z.land_assoc, E. reflexivity. Qed.

Lemma Debug_level_zero Name P from : Debug 0 Name P from = [].
Proof. reflexivity. Qed.

(** X14: for a positive [debug_lvl], what [Debug] prints depends on the
    level through its two lowest bits only: the bits 4, 8, 16 and 64
    change nothing. *)
Theorem Debug_low_bits l1 l2 Name P from :
  (0 < l1)%Z -> (0 < l2)%Z -> Z.land l1 3 = Z.land l2 3 ->
  Debug l1 Name P from = Debug l2 Name P from.
Proof.
  intros H1 H2 E.
  assert (F1 : flag l1 1 = flag l2 1)
    by (rewrite <- (flag_low_bits l1 1), <- (flag_low_bits l2 1), E;
        reflexivity).
  assert (F2 : flag l1 2 = flag l2 2)
    by (rewrite <- (flag_low_bits l1 2), <- (flag_low_bits l2 2), E;
        reflexivity).
  unfold Debug. rewrite F1, F2.
  destruct (Z.leb_spec l1 0), (Z.leb_spec l2 0); try lia.
  destruct (flag l2 1), (flag l2 2), (flag l1 4), (flag l2 4),
    (flag l1 8), (flag l2 8), (flag l1 16), (flag l2 16),
    (flag l1 64), (flag l2 64), (from =? 0)%Z, (from =? 1)%Z; reflexivity.
Qed.

(** X15: [Debug] prints nothing exactly when [debug_lvl] is zero or
    negative, or when neither of its two messages applies: bit 1 is clear or
    the caller is not the constructor (0), and bit 2 is clear or the caller
    is neither the constructor (0) nor the destructor (1). *)
Theorem Debug_silent_iff lvl Name P from :
  Debug lvl Name P from = [] <->
  (lvl <= 0)%Z \/
  ((Z.land lvl 1 = 0 \/ from <> 0)%Z /\
   (Z.land lvl 2 = 0 \/ (from <> 0 /\ from <> 1))%Z).
Proof.
  unfold Debug, flag.
  destruct (Z.leb_spec lvl 0) as [L|L]; [split; [left; exact L | reflexivity]|].
  destruct (Z.land lvl 4 =? 0)%Z, (Z.land lvl 8 =? 0)%Z,
    (Z.land lvl 16 =? 0)%Z, (Z.land lvl 64 =? 0)%Z;
    destruct (Z.eqb_spec (Z.land lvl 1) 0) as [B1|B1],
             (Z.eqb_spec (Z.land lvl 2) 0) as [B2|B2],
             (Z.eqb_spec from 0) as [F0|F0],
             (Z.eqb_spec from 1) as [F1|F1];
    cbn; (split; [intros H; try discriminate H | intros H; try reflexivity]);
    try (right; split; tauto);
    try (exfalso; lia);
    try (exfalso; destruct H as [H|[[H|H] [H'|[H' H'']]]]; congruence || lia).
Qed.

Lemma append_cancel_l (p a b : string) : (p ++ a = p ++ b -> a = b)%string.
Proof. induction p as [|c p IH]; cbn; [auto|]. intros [= H]. auto. Qed.

(** Two strings that agree up to and including the first [c] agree before
    it. *)
Lemma first_occurrence (c : ascii) (s1 s2 r1 r2 : string) :
  ~ occurs c s1 -> ~ occurs c s2 ->
  (s1 ++ String c r1 = s2 ++ String c r2)%string -> s1 = s2.
Proof.
  revert s2. induction s1 as [|a s1 IH]; intros [|b s2] N1 N2; cbn; intros E.
  - reflexivity.
  - injection E as E _. exfalso. apply N2. left. symmetry. exact E.
  - injection E as E _. exfalso. apply N1. left. exact E.
  - injection E as -> E. f_equal. apply IH; [| |exact E].
    + intros H. apply N1. right. exact H.
    + intros H. apply N2. right. exact H.
Qed.

Lemma uint_no_paren d : ~ occurs ")" (NilEmpty.string_of_uint d).
Proof.
  induction d; cbn; intros H; try destruct H as [H|H];
    try discriminate H; auto.
Qed.

Lemma show_int_no_paren n : ~ occurs ")" (show_int n).
Proof.
  unfold show_int. destruct (Z.to_int n) as [d|d]; cbn.
  - destruct d; try apply (uint_no_paren (_ _)).
    cbn. intros [H|[]]. discriminate.
  - intros [H|H]; [discriminate|]. revert H.
    destruct d; try apply (uint_no_paren (_ _)).
    cbn. intros [H|[]]. discriminate.
Qed.

(** Printing an [int] loses nothing. *)
Lemma show_int_inj n1 n2 : show_int n1 = show_int n2 -> n1 = n2.
Proof.
  unfold show_int. intros E. apply DecimalZ.to_int_inj.
  assert (P : forall n,
             NilZero.int_of_string (NilZero.string_of_int (Z.to_int n))
             = Some (Z.to_int n)).
  { intros n. apply NilZero.isi; destruct n; cbn; try discriminate;
      intros [= H]; revert H; apply Unsigned.to_uint_nonnil. }
  pose proof (P n1) as P1. rewrite E, P in P1.
  injection P1 as P1. symmetry. exact P1.
Qed.

(** X16: the label names its engine: two engines of the same name and
    different numbers never get the same label, whatever their thrusters add
    to the label and whatever the delimiters are. *)
Theorem GetEngineLabels_tells_engines_apart Name n1 n2 T1 T2 d1 d2 :
  n1 <> n2 ->
  GetEngineLabels Name n1 T1 d1 <> GetEngineLabels Name n2 T2 d2.
Proof.
  unfold GetEngineLabels. intros N E. apply N.
  apply append_cancel_l, append_cancel_l in E.
  apply show_int_inj.
  apply (first_occurrence ")" _ _ (d1 ++ T1 n1 d1) (d2 ++ T2 n2 d2));
    [apply show_int_no_paren | apply show_int_no_paren | exact E].
Qed.

(** ** The further theorems at concrete inputs *)

(** X1 on the RPM-command motor after one call. *)
Lemma mode_never_changes_witness :
  let m := self (Sample.Calculate Sample.motor_rpm Sample.in_half 0) in
  is_RPMCommand (branch (Sample.Calculate m Sample.in_overspeed 0)) = true.
Proof.
  destruct (mode_never_changes Sample.units Sample.motor_rpm
              (self (Sample.Calculate Sample.motor_rpm Sample.in_half 0))
              Sample.in_overspeed 0) as (_ & _ & _ & H).
  - apply reach_Calculate, reach_ctor.
  - exact H.
Defined.

(** X3 on the filtered motor at half throttle. *)
Lemma power_command_throttle_range_witness :
  0 <= to_thruster (Sample.Calculate Sample.motor_lag Sample.in_half 0)
  <= PowerMax Sample.motor_lag * wattstohp Sample.units
     * hptoftlbssec Sample.units.
Proof.
  apply (power_command_throttle_range Sample.units
           Sample.motor_lag Sample.in_half 0); evaluate.
Defined.

(** X4: idle against half throttle, on the plain and on the filtered motor,
    each time with 100 ft-lbs/sec required. *)
Lemma power_command_monotone_witness :
  to_thruster (Sample.Calculate Sample.motor_plain Cases.in_idle_loaded 0)
  <= to_thruster (Sample.Calculate Sample.motor_lag Sample.in_half 7).
Proof.
  apply (power_command_monotone Sample.units Sample.motor_plain
           Sample.motor_lag Cases.in_idle_loaded Sample.in_half);
    [evaluate | evaluate | reflexivity | reflexivity | evaluate | evaluate].
Defined.

(** X5 with 550 ft-lbs/sec to the horsepower. *)
Lemma HP_bounded_witness :
  ~ PowerMax Sample.motor_plain * wattstohp Sample.units
    * hptoftlbssec Sample.units / hptoftlbssec Sample.units
    < HP (self (Sample.Calculate Sample.motor_plain Sample.in_half 0)).
Proof.
  apply (HP_bounded Sample.units Sample.motor_plain Sample.in_half 0).
  evaluate.
Defined.

(** X6 at throttle 3 on a propeller at 10000 motor RPM, no filter. *)
Lemma rpm_command_on_target_witness :
  CmdPower_raw (Sample.Calculate Cases.motor_rpm_plain Sample.in_overspeed 0)
  == GetPowerRequired Sample.in_overspeed.
Proof.
  destruct (rpm_command_on_target Sample.units
              Cases.motor_rpm_plain Sample.in_overspeed 0)
    as (c & r & d & q & _ & H1 & H2);
    [evaluate | evaluate | evaluate | evaluate |].
  apply H1. apply H2; evaluate.
Defined.


(** X9 on the motor without filter, three calls. *)
Lemma unfiltered_run_keeps_FiltState_witness :
  FiltState (run Sample.units Sample.motor_plain
               (fun _ => Sample.in_half) (fun _ => 0) 3)
  = FiltState Sample.motor_plain.
Proof.
  apply (unfiltered_run_keeps_FiltState Sample.units Sample.motor_plain).
  evaluate.
Defined.

(** X10 at a timestep of -1 s. *)
Lemma small_timestep_is_floor_witness :
  Sample.Calculate Sample.motor_lag Sample.in_negative_dt 0
  = Sample.Calculate Sample.motor_lag
      (with_TotalDeltaT Sample.in_negative_dt 0.0001) 0.
Proof.
  apply (small_timestep_is_floor Sample.units). evaluate.
Defined.

(** X11 on the motor without filter. *)
Lemma unfiltered_call_is_stateless_witness :
  to_thruster (Sample.Calculate (with_state Sample.motor_plain 9 9)
                 (with_TotalDeltaT Sample.in_half 5) 0)
  = to_thruster (Sample.Calculate Sample.motor_plain Sample.in_half 0).
Proof.
  destruct (unfiltered_call_is_stateless Sample.units
              Sample.motor_plain Sample.in_half 0 5 9 9) as (_ & H & _);
    [evaluate | exact H].
Defined.

(** X13: a step of -1 s against a step of 1 s. *)
Lemma alpha_grows_with_timestep_witness :
  exists a1 a2,
    alpha_ (Sample.Calculate Sample.motor_lag Sample.in_negative_dt 0)
    = Some a1 /\
    alpha_ (Sample.Calculate Sample.motor_lag Sample.in_half 0) = Some a2 /\
    a1 <= a2.
Proof.
  destruct (alpha_grows_with_timestep Sample.units Sample.motor_lag
              Sample.in_negative_dt Sample.in_half 0 0)
    as (a1 & a2 & H1 & H2 & _ & H & _); [evaluate | evaluate |].
  exists a1, a2. repeat split; assumption.
Defined.

(** X14: the levels 1 and 1 + 4 + 8 + 16 + 64. *)
Lemma Debug_low_bits_witness :
  Debug 1 "motor" 745.7 0 = Debug 93 "motor" 745.7 0.
Proof. apply Debug_low_bits; reflexivity. Defined.

(** X15: the level 28 prints nothing; the level 1 prints at construction. *)
Lemma Debug_silent_iff_witness :
  Debug 28 "motor" 745.7 0 = [] /\
  ((1 <= 0)%Z \/
   ((Z.land 1 1 = 0 \/ 0 <> 0)%Z /\
    (Z.land 1 2 = 0 \/ (0 <> 0 /\ 0 <> 1))%Z) -> False).
Proof.
  split.
  - apply (proj2 (Debug_silent_iff 28 "motor" 745.7 0)).
    right. split; left; reflexivity.
  - intros H. apply (proj2 (Debug_silent_iff 1 "motor" 745.7 0)) in H.
    discriminate H.
Defined.

(** X16: the engines 1 and 2 of the same name. *)
Lemma GetEngineLabels_tells_engines_apart_witness :
  GetEngineLabels "motor" 1 Cases.thruster_labels ","
  <> GetEngineLabels "motor" 2 Cases.thruster_labels ";".
Proof.
  apply GetEngineLabels_tells_engines_apart. discriminate.
Defined.

End FGElectric.
